(** * teamBproject: a verification of [main.py]

    The script prints environment data, a seeded pseudo-random payload with a
    truncated SHA-256 checksum, and a Fibonacci summary.  This development
    embeds its functions in Gallina and proves the properties its
    specification states about them.

    Python integers are unbounded, so they are [Z]; Python lists are [list];
    a [dict] is a list of items in insertion order.  The two loops of the
    sequence analyser are embedded as they are written: the [for] loop of
    [fib] as an iteration over [range(max(0, n))], the [while] loop of
    [is_prime] with an explicit step budget whose sufficiency is proved.

    [random_payload] consists of calls into the Python library.  These are
    embedded at the level of what they compute: the MT19937 generator with
    CPython's seeding, [_randbelow] with its rejection loop, [round] and
    [repr] on floats, [json.dumps] and SHA-256.  The rejection loop has no
    bound that can be read off the code, so it carries a step budget and the
    payload generator returns an [option]. *)

From Stdlib Require Import String Ascii.
From Stdlib Require Import ZArith List Lia Bool DecimalString Permutation
  Sorted.
Import ListNotations.
Open Scope Z_scope.

(** ** Machine words and loops *)

(** A C [uint32_t] is a [Z] reduced modulo [2^32] where the C operation can
    leave the range. *)
Definition u32 (x : Z) : Z := x mod 4294967296.

(** [for k in lo .. hi-1] with the loop variables threaded through. *)
Definition for_range {A : Type} (lo hi : nat) (body : nat -> A -> A) (a : A)
  : A :=
  fold_left (fun acc k => body k acc) (seq lo (hi - lo)) a.

(** Array read and write on a list; a write past the end changes nothing
    (no such write occurs on the 624-word state). *)
Definition get (mt : list Z) (i : nat) : Z := nth i mt 0.

Fixpoint set (mt : list Z) (i : nat) (v : Z) : list Z :=
  match mt with
  | [] => []
  | h :: t =>
      match i with
      | O => v :: t
      | S i' => h :: set t i' v
      end
  end.

(** ** The generator behind [random.Random]: MT19937 as CPython seeds and
    steps it *)

Module Mersenne.

Definition N : nat := 624.
Definition M : nat := 397.
Definition MATRIX_A : Z := 0x9908b0df.
Definition UPPER_MASK : Z := 0x80000000.
Definition LOWER_MASK : Z := 0x7fffffff.

(** The generator object: the state array and the position in it. *)
Record RandomObject : Type := MkRandom { state : list Z; index : nat }.

(** [init_genrand(s)]: [mt[0] = s], then
    [mt[mti] = 1812433253 * (mt[mti-1] ^ (mt[mti-1] >> 30)) + mti]. *)
Definition init_genrand_body (mti : nat) (mt : list Z) : list Z :=
  let p := get mt (mti - 1) in
  set mt mti (u32 (1812433253 * Z.lxor p (Z.shiftr p 30) + Z.of_nat mti)).

Definition init_genrand (s : Z) : RandomObject :=
  MkRandom (for_range 1 N init_genrand_body (set (repeat 0 N) 0 (u32 s))) N.

(** The loop variables of [init_by_array]. *)
Record key_vars : Type := KeyVars { kv_i : nat; kv_j : nat; kv_mt : list Z }.

(** [if (i >= N) { mt[0] = mt[N-1]; i = 1; }] *)
Definition wrap_i (i : nat) (mt : list Z) : nat * list Z :=
  if (N <=? i)%nat then (1%nat, set mt 0 (get mt (N - 1))) else (i, mt).

Definition key_body1 (init_key : list Z) (v : key_vars) : key_vars :=
  let i := kv_i v in
  let j := kv_j v in
  let mt := kv_mt v in
  let p := get mt (i - 1) in
  let mt := set mt i
              (u32 (Z.lxor (get mt i) (u32 (Z.lxor p (Z.shiftr p 30) * 1664525))
                    + u32 (get init_key j) + Z.of_nat j)) in
  let (i, mt) := wrap_i (S i) mt in
  let j := S j in
  let j := if (length init_key <=? j)%nat then 0%nat else j in
  KeyVars i j mt.

Definition key_body2 (v : key_vars) : key_vars :=
  let i := kv_i v in
  let mt := kv_mt v in
  let p := get mt (i - 1) in
  let mt := set mt i
              (u32 (Z.lxor (get mt i)
                           (u32 (Z.lxor p (Z.shiftr p 30) * 1566083941))
                    - Z.of_nat i)) in
  let (i, mt) := wrap_i (S i) mt in
  KeyVars i (kv_j v) mt.

Definition init_by_array (init_key : list Z) : RandomObject :=
  let mt := state (init_genrand 19650218) in
  let k := Nat.max N (length init_key) in
  let v := Nat.iter k (key_body1 init_key) (KeyVars 1 0 mt) in
  let v := Nat.iter (N - 1) key_body2 v in
  MkRandom (set (kv_mt v) 0 0x80000000) N.

(** The key of an integer seed: the 32-bit words of [abs(seed)], least
    significant first; one zero word for 0. *)
Definition key_length (n : Z) : nat :=
  if n =? 0 then 1%nat else Z.to_nat (Z.log2 n / 32 + 1).

Definition seed_key (seed : Z) : list Z :=
  let n := Z.abs seed in
  map (fun i => Z.land (Z.shiftr n (32 * Z.of_nat i)) 0xffffffff)
      (seq 0 (key_length n)).

(** [random.Random(seed)].  With [seed = None] CPython keys the generator
    with 624 words read from the operating system; [entropy] stands for
    them. *)
Definition random_seed (entropy : list Z) (seed : option Z) : RandomObject :=
  match seed with
  | Some s => init_by_array (seed_key s)
  | None => init_by_array entropy
  end.

(** One word of the regeneration pass:
    [y = (mt[kk] & UPPER_MASK) | (mt[k1] & LOWER_MASK)];
    [mt[kk] = mt[km] ^ (y >> 1) ^ mag01[y & 1]]. *)
Definition twist_at (kk k1 km : nat) (mt : list Z) : list Z :=
  let y := Z.lor (Z.land (get mt kk) UPPER_MASK)
                 (Z.land (get mt k1) LOWER_MASK) in
  set mt kk (Z.lxor (Z.lxor (get mt km) (Z.shiftr y 1))
                    (if Z.odd y then MATRIX_A else 0)).

Definition regenerate (mt : list Z) : list Z :=
  let mt := for_range 0 (N - M)
              (fun kk => twist_at kk (kk + 1) (kk + M)) mt in
  let mt := for_range (N - M) (N - 1)
              (fun kk => twist_at kk (kk + 1) (kk + M - N)) mt in
  twist_at (N - 1) 0 (M - 1) mt.

(** The tempering of an output word. *)
Definition temper (y : Z) : Z :=
  let y := u32 (Z.lxor y (Z.shiftr y 11)) in
  let y := u32 (Z.lxor y (Z.land (Z.shiftl y 7) 0x9d2c5680)) in
  let y := u32 (Z.lxor y (Z.land (Z.shiftl y 15) 0xefc60000)) in
  u32 (Z.lxor y (Z.shiftr y 18)).

Definition genrand_uint32 (g : RandomObject) : Z * RandomObject :=
  let g := if (N <=? index g)%nat then MkRandom (regenerate (state g)) 0
           else g in
  (temper (get (state g) (index g)), MkRandom (state g) (S (index g))).

(** [getrandbits(k)]: one word shifted down for [k <= 32]; otherwise
    [(k-1)/32 + 1] words, least significant first, the last one shifted. *)
Fixpoint getrandbits_words (words : nat) (k : Z) (g : RandomObject)
  : Z * RandomObject :=
  match words with
  | O => (0, g)
  | S words' =>
      let (r, g) := genrand_uint32 g in
      let r := if k <? 32 then Z.shiftr r (32 - k) else r in
      let (hi, g) := getrandbits_words words' (k - 32) g in
      (r + Z.shiftl hi 32, g)
  end.

Definition getrandbits (k : Z) (g : RandomObject) : Z * RandomObject :=
  if k =? 0 then (0, g)
  else if k <=? 32 then
    let (r, g) := genrand_uint32 g in (Z.shiftr r (32 - k), g)
  else getrandbits_words (Z.to_nat ((k - 1) / 32 + 1)) k g.

(** The Python-level operations read and advance the generator and may
    fail: a computation takes the generator and returns a result with the
    generator after it, or nothing. *)
Definition Rand (A : Type) : Type := RandomObject -> option (A * RandomObject).

Definition ret {A : Type} (a : A) : Rand A := fun g => Some (a, g).

Definition bind {A B : Type} (c : Rand A) (k : A -> Rand B) : Rand B :=
  fun g => match c g with
           | Some (a, g') => k a g'
           | None => None
           end.

Definition lift {A : Type} (f : RandomObject -> A * RandomObject) : Rand A :=
  fun g => Some (f g).

Definition fail {A : Type} : Rand A := fun _ => None.

Definition run {A : Type} (c : Rand A) (g : RandomObject) : option A :=
  match c g with
  | Some (a, _) => Some a
  | None => None
  end.

Notation "x <- c ;; k" := (bind c (fun x => k))
  (at level 61, c at next level, right associativity).

(** [random()]: 53 bits from two words.  The result is the double
    [(a * 2^26 + b) / 2^53], exact in binary64; it is carried as its
    numerator. *)
Definition random : Rand Z :=
  a <- lift genrand_uint32 ;;
  b <- lift genrand_uint32 ;;
  ret (Z.shiftr a 5 * 67108864 + Z.shiftr b 6).

(** The [while r >= n] loop of [_randbelow_with_getrandbits].  It fails when
    the step budget runs out. *)
Fixpoint randbelow_loop (fuel : nat) (n k r : Z) : Rand Z :=
  if r <? n then ret r
  else match fuel with
       | O => fail
       | S fuel' => r' <- lift (getrandbits k) ;; randbelow_loop fuel' n k r'
       end.

(** [n.bit_length()] for [n > 0]. *)
Definition bit_length (n : Z) : Z := Z.log2 n + 1.

Definition randbelow (fuel : nat) (n : Z) : Rand Z :=
  let k := bit_length n in
  r <- lift (getrandbits k) ;;
  randbelow_loop fuel n k r.

(** [randrange(start, stop)] with step 1; the failure also stands for the
    [ValueError] of an empty range. *)
Definition randrange (fuel : nat) (start stop : Z) : Rand Z :=
  let width := stop - start in
  if 0 <? width then r <- randbelow fuel width ;; ret (start + r)
  else fail.

Definition randint (fuel : nat) (a b : Z) : Rand Z :=
  randrange fuel a (b + 1).

(** [choice(seq)]; the failure also stands for the [IndexError] on an empty
    sequence. *)
Definition choice {A : Type} (fuel : nat) (l : list A) : Rand A :=
  match l with
  | [] => fail
  | x :: _ =>
      r <- randbelow fuel (Z.of_nat (length l)) ;; ret (nth (Z.to_nat r) l x)
  end.

End Mersenne.

(** ** Sequence analyser: [fib] and [is_prime] *)

(** The local variables of [fib]: the list under construction and the two
    running values. *)
Record fib_vars : Type := FibVars { v_seq : list Z; v_a : Z; v_b : Z }.

(** [seq: List[int] = []] and [a, b = 0, 1]. *)
Definition fib_init : fib_vars := FibVars [] 0 1.

(** One pass through the loop body: [seq.append(a)] then [a, b = b, a + b]. *)
Definition fib_body (s : fib_vars) : fib_vars :=
  FibVars (v_seq s ++ [v_a s]) (v_b s) (v_a s + v_b s).

(** Number of iterations of [for _ in range(max(0, n))]. *)
Definition range_max0 (n : Z) : nat := Z.to_nat (Z.max 0 n).

Definition fib (n : Z) : list Z :=
  v_seq (Nat.iter (range_max0 n) fib_body fib_init).

(** The [while d * d <= n] loop of [is_prime].  [None] means that the step
    budget ran out before the loop left. *)
Fixpoint is_prime_loop (fuel : nat) (n d : Z) : option bool :=
  match fuel with
  | O => None
  | S fuel' =>
      if d * d <=? n
      then if n mod d =? 0 then Some false
           else is_prime_loop fuel' n (d + 2)
      else Some true
  end.

Definition is_prime_run (fuel : nat) (n : Z) : option bool :=
  if n <? 2 then Some false
  else if n mod 2 =? 0 then Some (n =? 2)
  else is_prime_loop fuel n 3.

(** A budget that always suffices: the loop tests odd [d] from 3 while
    [d <= sqrt n]. *)
Definition is_prime_budget (n : Z) : nat := Z.to_nat (Z.sqrt n).

Definition is_prime (n : Z) : bool :=
  match is_prime_run (is_prime_budget n) n with
  | Some r => r
  | None => false
  end.

(** Python's [sum(seq)]: a left fold from 0. *)
Definition sum (l : list Z) : Z := fold_left Z.add l 0.

(** The Fibonacci numbers as the specification names them: 0, 1, 1, 2, 3,
    5, ...  This definition follows the specification, not the code; [fib] is
    compared with it below. *)
Fixpoint Fibonacci (k : nat) : Z :=
  match k with
  | O => 0
  | S k' =>
      match k' with
      | O => 1
      | S k'' => Fibonacci k'' + Fibonacci k'
      end
  end.

(** ** Floats rounded to six places, and their [repr] *)

(** Round [num / den] to the nearest integer, ties to the even one: the
    rounding of Python's [round] on the exact value of its argument. *)
Definition round_half_even (num den : Z) : Z :=
  let q := num / den in
  let r := num mod den in
  if 2 * r <? den then q
  else if den <? 2 * r then q + 1
  else if Z.even q then q else q + 1.

(** [round(x, 6)] for the double [x = k / 2^53].  The result is the double
    nearest to [m / 10^6] for the integer [m] computed here; such doubles are
    in one-to-one correspondence with [m], and the float is carried as [m],
    its number of millionths. *)
Definition round6 (k : Z) : Z := round_half_even (k * 1000000) 9007199254740992.

Definition digit (d : Z) : ascii := ascii_of_nat (48 + Z.to_nat d).

(** [str(n)] for a Python integer. *)
Definition str_int (n : Z) : string := NilZero.string_of_int (Z.to_int n).

(** The six fractional digits of [r < 10^6], most significant first, with
    trailing zeros dropped but one digit kept. *)
Fixpoint drop_zeros (rev_digits : list Z) : list Z :=
  match rev_digits with
  | 0 :: t => drop_zeros t
  | _ => rev_digits
  end.

Definition fraction_digits (r : Z) : list Z :=
  let ds := map (fun p => (r / p) mod 10) [1; 10; 100; 1000; 10000; 100000] in
  match drop_zeros ds with
  | [] => [0]
  | ds' => rev ds'
  end.

Definition string_of_digits (ds : list Z) : string :=
  fold_right (fun d s => String (digit d) s) EmptyString ds.

(** [repr] of the float carried as [m] millionths ([0 <= m]): the shortest
    decimal that reads back as the same double, which is [m / 10^6] itself
    with trailing zeros dropped; below [1e-4] Python switches to exponent
    notation. *)
Definition float_repr (m : Z) : string :=
  if m =? 0 then "0.0"
  else if m <? 10 then string_of_digits [m] ++ "e-06"
  else if m <? 100 then
    (if m mod 10 =? 0 then string_of_digits [m / 10]
     else string_of_digits [m / 10] ++ "." ++ string_of_digits [m mod 10])
    ++ "e-05"
  else str_int (m / 1000000) ++ "."
       ++ string_of_digits (fraction_digits (m mod 1000000)).

(** ** Dictionaries and [json.dumps] *)

(** The values the payload holds. *)
Inductive value : Type :=
| VInt (n : Z)
| VFloat (millionths : Z)
| VStr (s : string).

(** A Python [dict]: keys in insertion order, no key twice. *)
Definition dict : Type := list (string * value).

Fixpoint dict_get (d : dict) (k : string) : option value :=
  match d with
  | [] => None
  | (k', v) :: t => if String.eqb k' k then Some v else dict_get t k
  end.

(** [d[k] = v]: in place for a key that is there, else at the end. *)
Fixpoint dict_set (d : dict) (k : string) (v : value) : dict :=
  match d with
  | [] => [(k, v)]
  | (k', v') :: t =>
      if String.eqb k' k then (k', v) :: t else (k', v') :: dict_set t k v
  end.

Module Json.

Definition hex_digit (d : Z) : ascii :=
  if d <? 10 then ascii_of_nat (48 + Z.to_nat d)
  else ascii_of_nat (87 + Z.to_nat d).

Definition quote : string := String (ascii_of_nat 34) EmptyString.

(** The escapes of [json.dumps] for a character below 128. *)
Definition escape_char (c : ascii) : string :=
  let n := Z.of_nat (nat_of_ascii c) in
  if n =? 34 then String "\" quote
  else if n =? 92 then "\\"
  else if n =? 10 then "\n"
  else if n =? 13 then "\r"
  else if n =? 9 then "\t"
  else if n =? 8 then "\b"
  else if n =? 12 then "\f"
  else if n <? 32 then
    "\u00" ++ String (hex_digit (n / 16)) (String (hex_digit (n mod 16)) EmptyString)
  else String c EmptyString.

Fixpoint escape (s : string) : string :=
  match s with
  | EmptyString => EmptyString
  | String c s' => escape_char c ++ escape s'
  end.

Definition dumps_string (s : string) : string := quote ++ escape s ++ quote.

Definition dumps_value (v : value) : string :=
  match v with
  | VInt n => str_int n
  | VFloat m => float_repr m
  | VStr s => dumps_string s
  end.

Definition dumps_item (kv : string * value) : string :=
  dumps_string (fst kv) ++ ": " ++ dumps_value (snd kv).

Fixpoint join (sep : string) (l : list string) : string :=
  match l with
  | [] => EmptyString
  | [x] => x
  | x :: t => x ++ sep ++ join sep t
  end.

(** [sort_keys=True]: the items ordered by key. *)
Fixpoint insert_item (kv : string * value) (l : dict) : dict :=
  match l with
  | [] => [kv]
  | h :: t =>
      if String.leb (fst kv) (fst h) then kv :: l else h :: insert_item kv t
  end.

Definition sort_items (d : dict) : dict := fold_right insert_item [] d.

(** [json.dumps(d, sort_keys=True)]. *)
Definition dumps_sorted (d : dict) : string :=
  "{" ++ join ", " (map dumps_item (sort_items d)) ++ "}".

(** [json.dumps(d, indent=2)]: one item per line, keys in insertion order. *)
Definition newline : string := String (ascii_of_nat 10) EmptyString.

Definition dumps_indent2 (d : dict) : string :=
  match d with
  | [] => "{}"
  | _ => "{" ++ newline
         ++ join ("," ++ newline) (map (fun kv => ("  " ++ dumps_item kv)%string) d)
         ++ newline ++ "}"
  end.

End Json.

(** ** SHA-256, as [hashlib.sha256(raw).hexdigest()] computes it *)

Module Sha256.

Definition rotr (n x : Z) : Z :=
  u32 (Z.lor (Z.shiftr x n) (Z.shiftl x (32 - n))).

Definition Ch (x y z : Z) : Z :=
  Z.lxor (Z.land x y) (Z.land (Z.lxor x 0xffffffff) z).

Definition Maj (x y z : Z) : Z :=
  Z.lxor (Z.lxor (Z.land x y) (Z.land x z)) (Z.land y z).

Definition Sigma0 (x : Z) : Z :=
  Z.lxor (Z.lxor (rotr 2 x) (rotr 13 x)) (rotr 22 x).

Definition Sigma1 (x : Z) : Z :=
  Z.lxor (Z.lxor (rotr 6 x) (rotr 11 x)) (rotr 25 x).

Definition sigma0 (x : Z) : Z :=
  Z.lxor (Z.lxor (rotr 7 x) (rotr 18 x)) (Z.shiftr x 3).

Definition sigma1 (x : Z) : Z :=
  Z.lxor (Z.lxor (rotr 17 x) (rotr 19 x)) (Z.shiftr x 10).

(** The round constants, eight rounds to a row. *)
Definition K_rounds_0_7 : list Z :=
  [ 0x428a2f98; 0x71374491; 0xb5c0fbcf; 0xe9b5dba5;
    0x3956c25b; 0x59f111f1; 0x923f82a4; 0xab1c5ed5 ].

Definition K_rounds_8_15 : list Z :=
  [ 0xd807aa98; 0x12835b01; 0x243185be; 0x550c7dc3;
    0x72be5d74; 0x80deb1fe; 0x9bdc06a7; 0xc19bf174 ].

Definition K_rounds_16_23 : list Z :=
  [ 0xe49b69c1; 0xefbe4786; 0x0fc19dc6; 0x240ca1cc;
    0x2de92c6f; 0x4a7484aa; 0x5cb0a9dc; 0x76f988da ].

Definition K_rounds_24_31 : list Z :=
  [ 0x983e5152; 0xa831c66d; 0xb00327c8; 0xbf597fc7;
    0xc6e00bf3; 0xd5a79147; 0x06ca6351; 0x14292967 ].

Definition K_rounds_32_39 : list Z :=
  [ 0x27b70a85; 0x2e1b2138; 0x4d2c6dfc; 0x53380d13;
    0x650a7354; 0x766a0abb; 0x81c2c92e; 0x92722c85 ].

Definition K_rounds_40_47 : list Z :=
  [ 0xa2bfe8a1; 0xa81a664b; 0xc24b8b70; 0xc76c51a3;
    0xd192e819; 0xd6990624; 0xf40e3585; 0x106aa070 ].

Definition K_rounds_48_55 : list Z :=
  [ 0x19a4c116; 0x1e376c08; 0x2748774c; 0x34b0bcb5;
    0x391c0cb3; 0x4ed8aa4a; 0x5b9cca4f; 0x682e6ff3 ].

Definition K_rounds_56_63 : list Z :=
  [ 0x748f82ee; 0x78a5636f; 0x84c87814; 0x8cc70208;
    0x90befffa; 0xa4506ceb; 0xbef9a3f7; 0xc67178f2 ].

Definition K : list Z :=
  K_rounds_0_7
  ++ K_rounds_8_15
  ++ K_rounds_16_23
  ++ K_rounds_24_31
  ++ K_rounds_32_39
  ++ K_rounds_40_47
  ++ K_rounds_48_55
  ++ K_rounds_56_63.

(** The eight working words. *)
Record regs : Type :=
  Regs { ra : Z; rb : Z; rc : Z; rd : Z; re : Z; rf : Z; rg : Z; rh : Z }.

Definition H0 : regs :=
  Regs 0x6a09e667 0xbb67ae85 0x3c6ef372 0xa54ff53a
       0x510e527f 0x9b05688c 0x1f83d9ab 0x5be0cd19.

(** Padding: a [0x80] byte, zeros up to 56 modulo 64, the bit length on
    eight bytes, most significant first. *)
Definition be64 (n : Z) : list Z :=
  map (fun i => Z.land (Z.shiftr n (8 * (7 - Z.of_nat i))) 0xff) (seq 0 8).

Definition pad (msg : list Z) : list Z :=
  let l := Z.of_nat (length msg) in
  msg ++ [0x80] ++ repeat 0 (Z.to_nat ((55 - l) mod 64)) ++ be64 (8 * l).

(** Big-endian 32-bit words of a byte list. *)
Fixpoint words_of_bytes (n : nat) (bytes : list Z) : list Z :=
  match n with
  | O => []
  | S n' =>
      match bytes with
      | b0 :: b1 :: b2 :: b3 :: t =>
          (b0 * 16777216 + b1 * 65536 + b2 * 256 + b3) :: words_of_bytes n' t
      | _ => []
      end
  end.

(** The message schedule: 16 words of the block, then 48 derived ones. *)
Definition schedule_body (t : nat) (w : list Z) : list Z :=
  w ++ [u32 (sigma1 (get w (t - 2)) + get w (t - 7)
             + sigma0 (get w (t - 15)) + get w (t - 16))].

Definition schedule (block : list Z) : list Z :=
  for_range 16 64 schedule_body (words_of_bytes 16 block).

Definition round_body (w : list Z) (t : nat) (r : regs) : regs :=
  let T1 := rh r + Sigma1 (re r) + Ch (re r) (rf r) (rg r)
            + get K t + get w t in
  let T2 := Sigma0 (ra r) + Maj (ra r) (rb r) (rc r) in
  Regs (u32 (T1 + T2)) (ra r) (rb r) (rc r)
       (u32 (rd r + T1)) (re r) (rf r) (rg r).

Definition compress (h : regs) (block : list Z) : regs :=
  let r := for_range 0 64 (round_body (schedule block)) h in
  Regs (u32 (ra h + ra r)) (u32 (rb h + rb r)) (u32 (rc h + rc r))
       (u32 (rd h + rd r)) (u32 (re h + re r)) (u32 (rf h + rf r))
       (u32 (rg h + rg r)) (u32 (rh h + rh r)).

Fixpoint process (nblocks : nat) (h : regs) (bytes : list Z) : regs :=
  match nblocks with
  | O => h
  | S n' => process n' (compress h (firstn 64 bytes)) (skipn 64 bytes)
  end.

Definition sha256 (msg : list Z) : regs :=
  let p := pad msg in
  process (Nat.div (length p) 64) H0 p.

(** Eight lower-case hexadecimal digits of a word, most significant first. *)
Definition hex8 (x : Z) : list ascii :=
  map (fun i => Json.hex_digit ((x / 16 ^ (7 - Z.of_nat i)) mod 16)) (seq 0 8).

Definition hexdigest (r : regs) : string :=
  string_of_list_ascii
    (concat (map hex8 [ra r; rb r; rc r; rd r; re r; rf r; rg r; rh r])).

End Sha256.

(** [s.encode("utf-8")]: strings here are byte strings that already hold
    UTF-8, so the bytes are the characters. *)
Definition encode_utf8 (s : string) : list Z :=
  map (fun c => Z.of_nat (nat_of_ascii c)) (list_ascii_of_string s).

(** ** The payload generator *)

Import Mersenne.

Definition categories : list string :=
  ["apple"; "banana"; "cherry"; "durian"]%string.

(** [hashlib.sha256(raw).hexdigest()[:16]]. *)
Definition short_digest (raw : list Z) : string :=
  substring 0 16 (Sha256.hexdigest (Sha256.sha256 raw)).

Definition random_payload (fuel : nat) (entropy : list Z) (seed : option Z)
  : option dict :=
  run (i <- randint fuel 1 100 ;;
       x <- random ;;
       c <- choice fuel categories ;;
       let data : dict :=
         [("int", VInt i); ("float", VFloat (round6 x)); ("choice", VStr c)]
           %string in
       let raw := encode_utf8 (Json.dumps_sorted data) in
       ret (dict_set data "sha256" (VStr (short_digest raw))))
      (random_seed entropy seed).

(** ** The Payload record as the specification describes it *)

Definition is_hex_digit (c : ascii) : bool :=
  let n := nat_of_ascii c in
  ((48 <=? n)%nat && (n <=? 57)%nat) || ((97 <=? n)%nat && (n <=? 102)%nat).

(** A string of exactly [n] hexadecimal digits. *)
Definition hex_string (n : nat) (s : string) : Prop :=
  String.length s = n
  /\ forallb is_hex_digit (list_ascii_of_string s) = true.

(** The three drawn fields, in the order the code stores them. *)
Definition payload_data (i m : Z) (c : string) : dict :=
  [("int", VInt i); ("float", VFloat m); ("choice", VStr c)]%string.

(** The dictionary [random_payload] returns: the data and the checksum. *)
Definition payload_of (i m : Z) (c h : string) : dict :=
  payload_data i m c ++ [("sha256", VStr h)]%string.

(** The ranges of the data model.  The float is carried in millionths, so
    [0 <= m < 1000000] reads: the float lies in [[0, 1)]. *)
Definition payload_ranges_half_open (p : dict) : Prop :=
  exists (i m : Z) (c h : string),
    p = payload_of i m c h
    /\ 1 <= i <= 100 /\ 0 <= m < 1000000
    /\ In c categories /\ hex_string 16 h.

(** The same with the upper end closed: the float lies in [[0, 1]]. *)
Definition payload_ranges_closed (p : dict) : Prop :=
  exists (i m : Z) (c h : string),
    p = payload_of i m c h
    /\ 1 <= i <= 100 /\ 0 <= m <= 1000000
    /\ In c categories /\ hex_string 16 h.

(** The canonical serialization in the specification's words: the three
    fields with their keys in lexicographic order, [choice], [float], [int].
    This definition follows the specification, not the code. *)
Definition canonical_serialization (i m : Z) (c : string) : string :=
  ("{" ++ Json.dumps_string "choice" ++ ": " ++ Json.dumps_string c
   ++ ", " ++ Json.dumps_string "float" ++ ": " ++ float_repr m
   ++ ", " ++ Json.dumps_string "int" ++ ": " ++ str_int i ++ "}")%string.


(** ** The entry point *)

(** What the run reads from its host: interpreter and platform strings, the
    working directory, the two clock readings (banner, then [env_info]) in
    ISO format to the second, and the words the operating system hands an
    unseeded generator. *)
Record World : Type :=
  MkWorld { python_version : string;
            platform_string : string;
            working_directory : string;
            now_banner : string;
            now_info : string;
            entropy : list Z }.

(** The parsed command line. *)
Record Args : Type := MkArgs { name : string; seed : option Z; count : Z }.

Definition default_args : Args := MkArgs "World" None 10.

Definition env_info (w : World) : list (string * string) :=
  [ ("python", python_version w);
    ("platform", platform_string w);
    ("cwd", working_directory w);
    ("time", now_info w) ]%string.

Fixpoint lookup (d : list (string * string)) (k : string) : string :=
  match d with
  | [] => EmptyString
  | (k', v) :: t => if String.eqb k' k then v else lookup t k
  end.

(** [s * n] on strings. *)
Fixpoint repeat_string (s : string) (n : nat) : string :=
  match n with
  | O => EmptyString
  | S n' => (s ++ repeat_string s n')%string
  end.

(** [str] of a list of integers. *)
Definition str_list (l : list Z) : string :=
  ("[" ++ Json.join ", " (map str_int l) ++ "]")%string.

(** The waving-hand sign of the greeting, U+1F44B in UTF-8. *)
Definition waving_hand : string :=
  string_of_list_ascii (map ascii_of_nat [240; 159; 145; 139]%nat).

(** [main]: the strings handed to [print], in order, and the return value.
    [None]: a rejection loop of the generator outran the budget. *)
Definition main (fuel : nat) (w : World) (args : Args)
  : option (list string * Z) :=
  let banner := repeat_string "=" 64 in
  let info := env_info w in
  match random_payload fuel (entropy w) (seed args) with
  | None => None
  | Some payload =>
      let seq := fib (count args) in
      let ssum := sum seq in
      let primes := filter is_prime seq in
      Some
        ([ banner;
           "GitHub test run at " ++ now_banner w;
           banner;
           "Hello, " ++ name args ++ " " ++ waving_hand;
           "- Python:   " ++ lookup info "python";
           "- Platform: " ++ lookup info "platform";
           "- CWD:      " ++ lookup info "cwd";
           Json.newline ++ "Random payload:";
           Json.dumps_indent2 payload;
           Json.newline ++ "Fibonacci(" ++ str_int (count args) ++ ") = "
             ++ str_list seq;
           "Sum = " ++ str_int ssum ++ " | Primes in sequence = "
             ++ str_list primes;
           Json.newline
             ++ "Done. Commit this change to test your GitHub setup." ]%string,
         0)
  end.

(** A host for the worked examples; its 624 words of operating-system
    randomness are made up. *)
Definition example_entropy : list Z :=
  map (fun i => u32 (Z.of_nat i * 2654435761 + 305419896)) (seq 0 624).

Definition example_world : World :=
  MkWorld "3.11.2" "Linux-6.1-x86_64" "/home/user/teamBproject"
          "2024-05-01T12:00:00" "2024-05-01T12:00:01" example_entropy.

(** A second host: the same interpreter, platform, directory and banner
    time, another clock reading in [env_info], other words of randomness. *)
Definition example_world_2 : World :=
  MkWorld "3.11.2" "Linux-6.1-x86_64" "/home/user/teamBproject"
          "2024-05-01T12:00:00" "2024-05-01T12:00:07"
          (map (fun x => u32 (x * 3 + 1)) example_entropy).

(** * Properties *)

(** *** Facts about [fib] *)

Lemma Fibonacci_SS (k : nat) :
  Fibonacci (S (S k)) = Fibonacci k + Fibonacci (S k).
Proof. reflexivity. Qed.

Lemma Fibonacci_nonneg (k : nat) : 0 <= Fibonacci k /\ 0 <= Fibonacci (S k).
Proof.
  induction k as [|k [IH0 IH1]].
  - simpl; lia.
  - split; [exact IH1|]. rewrite Fibonacci_SS. lia.
Qed.

(** The loop invariant of [fib]: after [k] passes the list holds the first
    [k] Fibonacci numbers and [a], [b] are the next two. *)
Lemma fib_loop_invariant (k : nat) :
  Nat.iter k fib_body fib_init
  = FibVars (map Fibonacci (seq 0 k)) (Fibonacci k) (Fibonacci (S k)).
Proof.
  induction k as [|k IH].
  - reflexivity.
  - rewrite Nat.iter_succ, IH. unfold fib_body; cbn [v_seq v_a v_b].
    rewrite seq_S, map_app. cbn [map Nat.add]. rewrite Fibonacci_SS.
    reflexivity.
Qed.

Lemma fib_eq (n : Z) : fib n = map Fibonacci (seq 0 (range_max0 n)).
Proof. unfold fib. rewrite fib_loop_invariant. reflexivity. Qed.

Lemma fib_length (n : Z) : length (fib n) = range_max0 n.
Proof. rewrite fib_eq, length_map, length_seq. reflexivity. Qed.

Lemma range_max0_nonneg (n : Z) : 0 <= n -> range_max0 n = Z.to_nat n.
Proof. intros H. unfold range_max0. f_equal. lia. Qed.

Lemma range_max0_neg (n : Z) : n <= 0 -> range_max0 n = 0%nat.
Proof. intros H. unfold range_max0. rewrite Z.max_l by lia. reflexivity. Qed.

Lemma sum_app (l : list Z) (x : Z) : sum (l ++ [x]) = sum l + x.
Proof. unfold sum. rewrite fold_left_app. reflexivity. Qed.

Lemma sum_Fibonacci (k : nat) :
  sum (map Fibonacci (seq 0 k)) + 1 = Fibonacci (S k).
Proof.
  induction k as [|k IH].
  - reflexivity.
  - rewrite seq_S, map_app. cbn [map Nat.add]. rewrite sum_app, Fibonacci_SS.
    lia.
Qed.

(** *** Facts about [is_prime] *)

Lemma is_prime_loop_more (fuel fuel' : nat) (n d : Z) (r : bool) :
  is_prime_loop fuel n d = Some r -> (fuel <= fuel')%nat ->
  is_prime_loop fuel' n d = Some r.
Proof.
  revert fuel' d. induction fuel as [|fuel IH]; intros fuel' d H Hle.
  - discriminate.
  - destruct fuel' as [|fuel']; [lia|]. cbn [is_prime_loop] in *.
    destruct (d * d <=? n); [|exact H].
    destruct (n mod d =? 0); [exact H|].
    apply IH; [exact H | lia].
Qed.

(** The loop leaves within the budget: each pass adds 2 to [d], and the
    guard fails once [d] exceeds the square root of [n]. *)
Lemma is_prime_loop_terminates (fuel : nat) (n d : Z) :
  0 <= n -> 1 <= d -> (1 <= fuel)%nat ->
  Z.sqrt n - d + 3 <= 2 * Z.of_nat fuel ->
  exists r, is_prime_loop fuel n d = Some r.
Proof.
  intros Hn. revert d. induction fuel as [|fuel IH]; intros d Hd Hf Hb.
  - lia.
  - cbn [is_prime_loop].
    destruct (d * d <=? n) eqn:Hg; [|eauto].
    destruct (n mod d =? 0); [eauto|].
    apply Z.leb_le in Hg.
    assert (Hs : d <= Z.sqrt n).
    { apply Z.sqrt_le_square; lia. }
    apply IH; lia.
Qed.

Lemma is_prime_run_terminates (n : Z) :
  exists r, is_prime_run (is_prime_budget n) n = Some r.
Proof.
  unfold is_prime_run.
  destruct (n <? 2) eqn:H2; [eauto|].
  destruct (n mod 2 =? 0); [eauto|].
  apply Z.ltb_ge in H2.
  assert (1 <= Z.sqrt n).
  { apply Z.sqrt_le_square; lia. }
  apply is_prime_loop_terminates; unfold is_prime_budget; lia.
Qed.

Lemma is_prime_run_more (fuel fuel' : nat) (n : Z) (r : bool) :
  is_prime_run fuel n = Some r -> (fuel <= fuel')%nat ->
  is_prime_run fuel' n = Some r.
Proof.
  unfold is_prime_run. intros H Hle.
  destruct (n <? 2); [exact H|].
  destruct (n mod 2 =? 0); [exact H|].
  eapply is_prime_loop_more; eauto.
Qed.

(** Whatever budget lets the loop finish, the result is that of [is_prime]. *)
Lemma is_prime_run_is_prime (fuel : nat) (n : Z) (r : bool) :
  is_prime_run fuel n = Some r -> is_prime n = r.
Proof.
  intros H. unfold is_prime.
  destruct (is_prime_run_terminates n) as [r' Hr']. rewrite Hr'.
  destruct (Nat.le_ge_cases fuel (is_prime_budget n)) as [Hle|Hle].
  - pose proof (is_prime_run_more _ _ _ _ H Hle). congruence.
  - pose proof (is_prime_run_more _ _ _ _ Hr' Hle). congruence.
Qed.

(** What the loop computes: it answers [true] exactly when no tested [d']
    divides [n], the tested values being [d], [d + 2], ... up to the square
    root. *)
Lemma is_prime_loop_spec (fuel : nat) (n d : Z) (r : bool) :
  0 <= n -> 1 <= d ->
  is_prime_loop fuel n d = Some r ->
  (r = true <->
   forall k : Z, 0 <= k -> d + 2 * k <= Z.sqrt n -> n mod (d + 2 * k) <> 0).
Proof.
  intros Hn. revert d. induction fuel as [|fuel IH]; intros d Hd H.
  - discriminate.
  - cbn [is_prime_loop] in H.
    destruct (d * d <=? n) eqn:Hg.
    + apply Z.leb_le in Hg.
      assert (Hs : d <= Z.sqrt n) by (apply Z.sqrt_le_square; lia).
      destruct (n mod d =? 0) eqn:Hm.
      * apply Z.eqb_eq in Hm. injection H as <-. split; [discriminate|].
        intros Hall. exfalso. apply (Hall 0); [lia| |]; rewrite Z.add_0_r;
          assumption.
      * apply Z.eqb_neq in Hm. apply IH in H; [|lia]. rewrite H. split.
        -- intros Hall k Hk Hle.
           destruct (Z.eq_dec k 0) as [->|Hk0].
           ++ rewrite Z.add_0_r. exact Hm.
           ++ replace (d + 2 * k) with (d + 2 + 2 * (k - 1)) by lia.
              apply Hall; lia.
        -- intros Hall k Hk Hle.
           replace (d + 2 + 2 * k) with (d + 2 * (k + 1)) by lia.
           apply Hall; lia.
    + apply Z.leb_gt in Hg. injection H as <-. split; [|reflexivity].
      intros _ k Hk Hle. exfalso.
      assert (Hs : Z.sqrt n < d).
      { apply Z.sqrt_lt_square; lia. }
      lia.
Qed.

Lemma is_prime_run_budget (n : Z) :
  is_prime_run (is_prime_budget n) n = Some (is_prime n).
Proof.
  destruct (is_prime_run_terminates n) as [r Hr].
  rewrite Hr. f_equal. symmetry. eapply is_prime_run_is_prime; eauto.
Qed.

(** *** The sequence analyser: the stated properties *)

(** C4.  For [n >= 0], [fib n] has exactly [n] elements and they are the first
    [n] Fibonacci numbers 0, 1, 1, 2, 3, 5, ...; [fib 0] is empty, [fib 1] is
    [[0]], [fib 5] is [[0; 1; 1; 2; 3]]; for negative [m], [fib m] is empty,
    as for 0. *)
Theorem fib_first_n (n m : Z) :
  0 <= n -> m < 0 ->
  Z.of_nat (length (fib n)) = n
  /\ (forall i : nat, (i < length (fib n))%nat ->
        nth i (fib n) 0 = Fibonacci i)
  /\ fib 0 = [] /\ fib 1 = [0] /\ fib 5 = [0; 1; 1; 2; 3]
  /\ fib 6 = [0; 1; 1; 2; 3; 5]
  /\ fib m = [] /\ fib m = fib 0.
Proof.
  intros Hn Hm.
  assert (Hneg : fib m = []).
  { rewrite fib_eq, range_max0_neg by lia. reflexivity. }
  repeat split; try reflexivity; try exact Hneg.
  - rewrite fib_length, range_max0_nonneg by exact Hn. lia.
  - intros i Hi. rewrite fib_length in Hi. rewrite fib_eq.
    rewrite (nth_indep _ 0 (Fibonacci 0%nat)) by
      (rewrite length_map, length_seq; exact Hi).
    rewrite map_nth, seq_nth by exact Hi. reflexivity.
Qed.

Lemma fib_first_n_witness :
  Z.of_nat (length (fib 7)) = 7 /\ fib (-3) = [].
Proof.
  pose proof (fib_first_n 7 (-3) ltac:(lia) ltac:(lia)) as H.
  split; [exact (proj1 H) | exact (proj1 (proj2 (proj2 (proj2 (proj2 (proj2 (proj2 H)))))))].
Defined.

(** C5.  [is_prime n] is false for [n < 2], true for 2, false for every even
    [n > 2]; for odd [n > 2] it is true exactly when no odd [d] with
    [3 <= d <= floor(sqrt n)] divides [n]; it is true on 2, 3, 5, 7, 11, 13 and
    false on 4, 6, 8, 9, 10. *)
Theorem is_prime_trial_division (n : Z) :
  (n < 2 -> is_prime n = false)
  /\ (n = 2 -> is_prime n = true)
  /\ (2 < n -> n mod 2 = 0 -> is_prime n = false)
  /\ (2 < n -> n mod 2 = 1 ->
      (is_prime n = true <->
       forall d : Z, 3 <= d <= Z.sqrt n -> d mod 2 = 1 -> n mod d <> 0))
  /\ map is_prime [2; 3; 5; 7; 11; 13] = [true; true; true; true; true; true]
  /\ map is_prime [4; 6; 8; 9; 10] = [false; false; false; false; false].
Proof.
  assert (Hodd : 2 < n -> n mod 2 = 1 ->
                 is_prime_loop (is_prime_budget n) n 3 = Some (is_prime n)).
  { intros Hn Hm. pose proof (is_prime_run_budget n) as Hr.
    unfold is_prime_run in Hr.
    replace (n <? 2) with false in Hr by (symmetry; apply Z.ltb_ge; lia).
    rewrite Hm in Hr. exact Hr. }
  split; [|split; [|split; [|split; [|split]]]]; try reflexivity.
  - intros H. apply (is_prime_run_is_prime 0). unfold is_prime_run.
    apply Z.ltb_lt in H. rewrite H. reflexivity.
  - intros ->. reflexivity.
  - intros H Hev. apply (is_prime_run_is_prime 0). unfold is_prime_run.
    replace (n <? 2) with false by (symmetry; apply Z.ltb_ge; lia).
    rewrite Hev. cbn [Z.eqb]. f_equal. apply Z.eqb_neq. lia.
  - intros Hn Hm.
    pose proof (is_prime_loop_spec (is_prime_budget n) n 3 (is_prime n)
                  ltac:(lia) ltac:(lia) (Hodd Hn Hm)) as Hspec.
    rewrite Hspec. split.
    + intros Hall d Hd Hdodd.
      pose proof (Z.div_mod d 2 ltac:(lia)) as Hdm.
      replace d with (3 + 2 * (d / 2 - 1)) by lia.
      apply Hall; lia.
    + intros Hall k Hk Hle. apply Hall; [lia|].
      replace (3 + 2 * k) with (1 + (k + 1) * 2) by lia.
      rewrite Z.mod_add by lia. reflexivity.
Qed.

Lemma is_prime_trial_division_witness :
  is_prime (-5) = false /\ is_prime 100 = false
  /\ (is_prime 49 = true <->
      forall d : Z, 3 <= d <= Z.sqrt 49 -> d mod 2 = 1 -> 49 mod d <> 0).
Proof.
  split; [|split].
  - apply (proj1 (is_prime_trial_division (-5))). lia.
  - apply (proj1 (proj2 (proj2 (is_prime_trial_division 100)))).
    + lia.
    + reflexivity.
  - apply (proj1 (proj2 (proj2 (proj2 (is_prime_trial_division 49))))).
    + lia.
    + reflexivity.
Defined.

(** C8.  [fib] and [is_prime] return on every integer: the loop of [fib]
    makes exactly [max(0, n)] passes, each appending one element, and the
    loop of [is_prime] leaves within a budget computed from [n], with the
    same answer under every larger budget. *)
Theorem fib_is_prime_total (n : Z) :
  (exists l : list Z, fib n = l /\ Z.of_nat (length l) = Z.max 0 n)
  /\ (exists (fuel : nat) (r : bool),
        forall fuel' : nat, (fuel <= fuel')%nat ->
          is_prime_run fuel' n = Some r /\ is_prime n = r).
Proof.
  split.
  - exists (fib n). split; [reflexivity|].
    rewrite fib_length. unfold range_max0. lia.
  - exists (is_prime_budget n), (is_prime n). intros fuel' Hle. split.
    + apply (is_prime_run_more (is_prime_budget n)); [|exact Hle].
      apply is_prime_run_budget.
    + reflexivity.
Qed.

(** C9.  For [0 <= n <= m], [fib n] is a prefix of [fib m]. *)
Theorem fib_prefix (n m : Z) :
  0 <= n -> n <= m ->
  (exists l : list Z, fib m = fib n ++ l)
  /\ firstn (Z.to_nat n) (fib m) = fib n.
Proof.
  intros Hn Hm.
  assert (Happ : exists l : list Z, fib m = fib n ++ l).
  { rewrite !fib_eq, !range_max0_nonneg by lia.
    replace (Z.to_nat m) with (Z.to_nat n + Z.to_nat (m - n))%nat by lia.
    rewrite seq_app, map_app. eauto. }
  split; [exact Happ|].
  destruct Happ as [l ->].
  replace (Z.to_nat n) with (length (fib n) + 0)%nat
    by (rewrite fib_length, range_max0_nonneg by lia; lia).
  rewrite firstn_app_2. cbn [firstn]. apply app_nil_r.
Qed.

Lemma fib_prefix_witness :
  (exists l : list Z, fib 9 = fib 4 ++ l) /\ firstn (Z.to_nat 4) (fib 9) = fib 4.
Proof. apply (fib_prefix 4 9); lia. Defined.

(** C10.  For [n >= 0], the sum of [fib n] plus 1 is the last element of
    [fib (n + 2)]. *)
Theorem fib_sum_identity (n : Z) :
  0 <= n -> sum (fib n) + 1 = last (fib (n + 2)) 0.
Proof.
  intros Hn. rewrite !fib_eq, !range_max0_nonneg by lia.
  replace (Z.to_nat (n + 2)) with (S (S (Z.to_nat n))) by lia.
  rewrite (seq_S (S (Z.to_nat n))), map_app. cbn [map Nat.add].
  rewrite last_last. apply sum_Fibonacci.
Qed.

Lemma fib_sum_identity_witness : sum (fib 5) + 1 = last (fib (5 + 2)) 0.
Proof. apply (fib_sum_identity 5). lia. Defined.

Lemma fib_is_prime_total_witness :
  (exists l : list Z, fib (-4) = l /\ Z.of_nat (length l) = Z.max 0 (-4))
  /\ (exists (fuel : nat) (r : bool),
        forall fuel' : nat, (fuel <= fuel')%nat ->
          is_prime_run fuel' 97 = Some r /\ is_prime 97 = r).
Proof.
  split.
  - exact (proj1 (fib_is_prime_total (-4))).
  - exact (proj2 (fib_is_prime_total 97)).
Defined.

(** ** The library model on known values *)

(** The two one-block test vectors of FIPS 180-4 and the empty message. *)
Example sha256_abc :
  Sha256.hexdigest (Sha256.sha256 (encode_utf8 "abc"))
  = "ba7816bf8f01cfea414140de5dae2223b00361a396177a9cb410ff61f20015ad"%string.
Proof. vm_compute. reflexivity. Qed.

Example sha256_two_blocks :
  Sha256.hexdigest
    (Sha256.sha256
       (encode_utf8 "abcdbcdecdefdefgefghfghighijhijkijkljklmklmnlmnomnopnopq"))
  = "248d6a61d20638b8e5c026930c3e6039a33ce45964ff2167f6ecedd419db06c1"%string.
Proof. vm_compute. reflexivity. Qed.

Example sha256_empty :
  Sha256.hexdigest (Sha256.sha256 [])
  = "e3b0c44298fc1c149afbf4c8996fb92427ae41e4649b934ca495991b7852b855"%string.
Proof. vm_compute. reflexivity. Qed.

(** The first words of the generator seeded with 42. *)
Example genrand_seed_42 :
  let (a, g) := genrand_uint32 (random_seed [] (Some 42)) in
  (a, fst (genrand_uint32 g)) = (2746317213, 478163327).
Proof. vm_compute. reflexivity. Qed.

(** An exact tie: 0.0078125 rounds to the even neighbour 0.007812. *)
Example round6_tie : round6 (9007199254740992 / 128) = 7812.
Proof. reflexivity. Qed.

Example float_repr_examples :
  map float_repr [0; 5; 28; 100; 111331; 500000; 1000000]
  = ["0.0"; "5e-06"; "2.8e-05"; "0.0001"; "0.111331"; "0.5"; "1.0"]%string.
Proof. reflexivity. Qed.

Example random_payload_seed_42 :
  random_payload 10 [] (Some 42)
  = Some (payload_of 82 111331 "cherry" "e9398e0bb88c5187").
Proof. vm_compute. reflexivity. Qed.

Example random_payload_serialized_42 :
  Json.dumps_sorted (payload_data 82 111331 "cherry")
  = canonical_serialization 82 111331 "cherry".
Proof. reflexivity. Qed.

(** ** The generator: ranges of its outputs *)

Lemma u32_range (x : Z) : 0 <= u32 x < 4294967296.
Proof. unfold u32. apply Z.mod_pos_bound. lia. Qed.

Lemma genrand_uint32_range (g : RandomObject) :
  0 <= fst (genrand_uint32 g) < 4294967296.
Proof. unfold genrand_uint32, temper. cbv zeta. cbn [fst]. apply u32_range. Qed.

Lemma getrandbits_words_nonneg (words : nat) (k : Z) (g : RandomObject) :
  0 <= fst (getrandbits_words words k g).
Proof.
  revert k g. induction words as [|words IH]; intros k g.
  - cbn. lia.
  - cbn [getrandbits_words].
    pose proof (genrand_uint32_range g) as Hr.
    destruct (genrand_uint32 g) as [r g1]. cbn [fst] in Hr.
    specialize (IH (k - 32) g1).
    destruct (getrandbits_words words (k - 32) g1) as [hi g2].
    cbn [fst] in *.
    assert (0 <= Z.shiftl hi 32) by (apply Z.shiftl_nonneg; exact IH).
    assert (0 <= Z.shiftr r (32 - k)) by (apply Z.shiftr_nonneg; lia).
    destruct (k <? 32); lia.
Qed.

Lemma getrandbits_nonneg (k : Z) (g : RandomObject) :
  0 <= fst (getrandbits k g).
Proof.
  unfold getrandbits.
  destruct (k =? 0); [cbn; lia|].
  destruct (k <=? 32); [|apply getrandbits_words_nonneg].
  pose proof (genrand_uint32_range g) as Hr.
  destruct (genrand_uint32 g) as [r g1]. cbn [fst] in *.
  apply Z.shiftr_nonneg. lia.
Qed.

(** The rejection loop returns only values below [n]. *)
Lemma randbelow_loop_range (fuel : nat) (n k r : Z) (g g' : RandomObject)
      (r' : Z) :
  0 <= r -> randbelow_loop fuel n k r g = Some (r', g') -> 0 <= r' < n.
Proof.
  revert r g. induction fuel as [|fuel IH]; intros r g Hr H;
    cbn [randbelow_loop] in H; destruct (r <? n) eqn:Hlt.
  - injection H as <- <-. apply Z.ltb_lt in Hlt. lia.
  - discriminate.
  - injection H as <- <-. apply Z.ltb_lt in Hlt. lia.
  - unfold bind, lift in H.
    pose proof (getrandbits_nonneg k g) as Hnn.
    destruct (getrandbits k g) as [r1 g1]. cbn [fst] in Hnn.
    eapply IH; eauto.
Qed.

Lemma randbelow_range (fuel : nat) (n : Z) (g g' : RandomObject) (r : Z) :
  randbelow fuel n g = Some (r, g') -> 0 <= r < n.
Proof.
  unfold randbelow, bind, lift. intros H.
  pose proof (getrandbits_nonneg (bit_length n) g) as Hnn.
  destruct (getrandbits (bit_length n) g) as [r1 g1]. cbn [fst] in Hnn.
  eapply randbelow_loop_range; eauto.
Qed.

Lemma randint_range (fuel : nat) (a b : Z) (g g' : RandomObject) (r : Z) :
  randint fuel a b g = Some (r, g') -> a <= r <= b.
Proof.
  unfold randint, randrange. destruct (0 <? b + 1 - a); [|discriminate].
  unfold bind, ret. intros H.
  destruct (randbelow fuel (b + 1 - a) g) as [[r1 g1]|] eqn:Hb;
    [|discriminate].
  injection H as <- <-. apply randbelow_range in Hb. lia.
Qed.

Lemma choice_In {A : Type} (fuel : nat) (l : list A) (g g' : RandomObject)
      (x : A) :
  choice fuel l g = Some (x, g') -> In x l.
Proof.
  unfold choice. destruct l as [|y l']; [discriminate|].
  unfold bind, ret. intros H.
  destruct (randbelow fuel (Z.of_nat (length (y :: l'))) g) as [[r g1]|] eqn:Hb;
    [|discriminate].
  injection H as <- <-. apply randbelow_range in Hb.
  change (In (nth (Z.to_nat r) (y :: l') y) (y :: l')).
  apply nth_In. lia.
Qed.

Lemma random_range (g g' : RandomObject) (x : Z) :
  random g = Some (x, g') -> 0 <= x < 9007199254740992.
Proof.
  unfold random, bind, lift, ret. intros H.
  pose proof (genrand_uint32_range g) as Ha.
  destruct (genrand_uint32 g) as [a g1]. cbn [fst] in Ha.
  pose proof (genrand_uint32_range g1) as Hb.
  destruct (genrand_uint32 g1) as [b g2]. cbn [fst] in Hb.
  injection H as <- <-.
  rewrite !Z.shiftr_div_pow2 by lia.
  change (2 ^ 5) with 32. change (2 ^ 6) with 64.
  assert (0 <= a / 32 < 134217728).
  { split; [apply Z.div_pos; lia | apply Z.div_lt_upper_bound; lia]. }
  assert (0 <= b / 64 < 67108864).
  { split; [apply Z.div_pos; lia | apply Z.div_lt_upper_bound; lia]. }
  lia.
Qed.

(** Rounding a double of [[0, 1)] to six places gives a number of millionths
    between 0 and [10^6], both ends included. *)
Lemma round6_range (k : Z) :
  0 <= k < 9007199254740992 -> 0 <= round6 k <= 1000000.
Proof.
  intros Hk. unfold round6, round_half_even.
  assert (0 <= k * 1000000 / 9007199254740992 < 1000000).
  { split; [apply Z.div_pos; lia | apply Z.div_lt_upper_bound; lia]. }
  cbv zeta.
  destruct (2 * ((k * 1000000) mod 9007199254740992) <? 9007199254740992);
    [lia|].
  destruct (9007199254740992 <? 2 * ((k * 1000000) mod 9007199254740992));
    [lia|].
  destruct (Z.even (k * 1000000 / 9007199254740992)); lia.
Qed.

(** ** The generator: independence of the step budget *)

Lemma randbelow_loop_more (fuel fuel' : nat) (n k r : Z) (g : RandomObject)
      (res : Z * RandomObject) :
  randbelow_loop fuel n k r g = Some res -> (fuel <= fuel')%nat ->
  randbelow_loop fuel' n k r g = Some res.
Proof.
  revert fuel' r g. induction fuel as [|fuel IH]; intros fuel' r g H Hle.
  - cbn [randbelow_loop] in H.
    destruct fuel'; cbn [randbelow_loop]; destruct (r <? n);
      solve [exact H | discriminate].
  - destruct fuel' as [|fuel']; [lia|]. cbn [randbelow_loop] in *.
    destruct (r <? n); [exact H|].
    unfold bind, lift in *.
    destruct (getrandbits k g) as [r1 g1].
    apply IH; [exact H | lia].
Qed.

Lemma randbelow_more (fuel fuel' : nat) (n : Z) (g : RandomObject)
      (res : Z * RandomObject) :
  randbelow fuel n g = Some res -> (fuel <= fuel')%nat ->
  randbelow fuel' n g = Some res.
Proof.
  unfold randbelow, bind, lift. intros H Hle.
  destruct (getrandbits (bit_length n) g) as [r1 g1].
  eapply randbelow_loop_more; eauto.
Qed.

Lemma randint_more (fuel fuel' : nat) (a b : Z) (g : RandomObject)
      (res : Z * RandomObject) :
  randint fuel a b g = Some res -> (fuel <= fuel')%nat ->
  randint fuel' a b g = Some res.
Proof.
  unfold randint, randrange. destruct (0 <? b + 1 - a); [|discriminate].
  unfold bind. intros H Hle.
  destruct (randbelow fuel (b + 1 - a) g) as [[r g1]|] eqn:Hb; [|discriminate].
  rewrite (randbelow_more _ _ _ _ _ Hb Hle). exact H.
Qed.

Lemma choice_more {A : Type} (fuel fuel' : nat) (l : list A)
      (g : RandomObject) (res : A * RandomObject) :
  choice fuel l g = Some res -> (fuel <= fuel')%nat ->
  choice fuel' l g = Some res.
Proof.
  unfold choice. destruct l as [|y l']; [discriminate|].
  unfold bind. intros H Hle.
  destruct (randbelow fuel (Z.of_nat (length (y :: l'))) g) as [[r g1]|] eqn:Hb;
    [|discriminate].
  rewrite (randbelow_more _ _ _ _ _ Hb Hle). exact H.
Qed.

(** ** Strings and digests *)


Lemma substring_0_firstn (n : nat) (l : list ascii) :
  substring 0 n (string_of_list_ascii l) = string_of_list_ascii (firstn n l).
Proof.
  revert l. induction n as [|n IH]; intros l.
  - destruct l; reflexivity.
  - destruct l as [|c l]; [reflexivity|]. cbn. rewrite IH. reflexivity.
Qed.

Lemma length_string_of_list_ascii (l : list ascii) :
  String.length (string_of_list_ascii l) = length l.
Proof. induction l as [|c l IH]; cbn; [reflexivity|]. rewrite IH. reflexivity. Qed.

Lemma hex_digit_is_hex (d : Z) :
  0 <= d < 16 -> is_hex_digit (Json.hex_digit d) = true.
Proof.
  intros H.
  assert (Hin : In d [0; 1; 2; 3; 4; 5; 6; 7; 8; 9; 10; 11; 12; 13; 14; 15])
    by (cbn [In]; lia).
  cbn [In] in Hin.
  repeat (destruct Hin as [<-|Hin]; [reflexivity|]). contradiction.
Qed.

Lemma hex8_length (x : Z) : length (Sha256.hex8 x) = 8%nat.
Proof. unfold Sha256.hex8. rewrite length_map, length_seq. reflexivity. Qed.

Lemma hex8_is_hex (x : Z) : forallb is_hex_digit (Sha256.hex8 x) = true.
Proof.
  unfold Sha256.hex8. apply forallb_forall. intros c Hc.
  apply in_map_iff in Hc. destruct Hc as [i [<- _]].
  apply hex_digit_is_hex. apply Z.mod_pos_bound. lia.
Qed.

(** The truncated digest is sixteen hexadecimal digits, whatever was hashed:
    the first two of the eight words. *)
Lemma short_digest_eq (raw : list Z) :
  short_digest raw
  = string_of_list_ascii
      (Sha256.hex8 (Sha256.ra (Sha256.sha256 raw))
       ++ Sha256.hex8 (Sha256.rb (Sha256.sha256 raw))).
Proof.
  unfold short_digest, Sha256.hexdigest.
  rewrite substring_0_firstn. reflexivity.
Qed.

Lemma short_digest_hex (raw : list Z) : hex_string 16 (short_digest raw).
Proof.
  rewrite short_digest_eq. split.
  - rewrite length_string_of_list_ascii, length_app, !hex8_length.
    reflexivity.
  - rewrite list_ascii_of_string_of_list_ascii, forallb_app, !hex8_is_hex.
    reflexivity.
Qed.

(** ** The payload generator *)

Lemma dict_set_payload (i m : Z) (c h : string) :
  dict_set (payload_data i m c) "sha256" (VStr h) = payload_of i m c h.
Proof. reflexivity. Qed.



(** What a returned payload is made of. *)
Lemma random_payload_inv (fuel : nat) (e : list Z) (sd : option Z) (p : dict) :
  random_payload fuel e sd = Some p ->
  exists (i x : Z) (c : string) (g1 g2 g3 : RandomObject),
    randint fuel 1 100 (random_seed e sd) = Some (i, g1)
    /\ random g1 = Some (x, g2)
    /\ choice fuel categories g2 = Some (c, g3)
    /\ p = payload_of i (round6 x) c
             (short_digest
                (encode_utf8 (Json.dumps_sorted (payload_data i (round6 x) c)))).
Proof.
  unfold random_payload, run, bind, ret. intros H.
  destruct (randint fuel 1 100 (random_seed e sd)) as [[i g1]|] eqn:Hi;
    [|discriminate].
  destruct (random g1) as [[x g2]|] eqn:Hx; [|discriminate].
  destruct (choice fuel categories g2) as [[c g3]|] eqn:Hc; [|discriminate].
  injection H as <-.
  exists i, x, c, g1, g2, g3. auto.
Qed.

Lemma random_payload_intro (fuel : nat) (e : list Z) (sd : option Z)
      (i x : Z) (c : string) (g1 g2 g3 : RandomObject) :
  randint fuel 1 100 (random_seed e sd) = Some (i, g1) ->
  random g1 = Some (x, g2) ->
  choice fuel categories g2 = Some (c, g3) ->
  random_payload fuel e sd
  = Some (payload_of i (round6 x) c
            (short_digest
               (encode_utf8 (Json.dumps_sorted (payload_data i (round6 x) c))))).
Proof.
  intros Hi Hx Hc. unfold random_payload, run, bind, ret.
  rewrite Hi, Hx, Hc. reflexivity.
Qed.

(** A payload returned under one step budget is returned under every larger
    one. *)
Lemma random_payload_more (fuel fuel' : nat) (e : list Z) (sd : option Z)
      (p : dict) :
  random_payload fuel e sd = Some p -> (fuel <= fuel')%nat ->
  random_payload fuel' e sd = Some p.
Proof.
  intros H Hle.
  apply random_payload_inv in H.
  destruct H as (i & x & c & g1 & g2 & g3 & Hi & Hx & Hc & ->).
  eapply random_payload_intro; eauto using randint_more, choice_more.
Qed.

(** *** The payload generator: the stated properties *)



(** C2, as the specification states it, fails: with seed 5221946 the draw is
    0.9999996139782771, which rounds to 1.0, outside [[0, 1)]. *)
Lemma random_payload_float_reaches_one :
  exists p : dict,
    random_payload 10 [] (Some 5221946) = Some p
    /\ dict_get p "float" = Some (VFloat 1000000)
    /\ ~ payload_ranges_half_open p.
Proof.
  eexists. split; [vm_compute; reflexivity|]. split; [reflexivity|].
  intros (i & m & c & h & Heq & _ & Hm & _).
  unfold payload_of, payload_data in Heq. cbn [app] in Heq.
  injection Heq as _ Hm' _ _. lia.
Qed.

(** C2, amended.  Every payload returned by [random_payload], seeded or not,
    has an integer in [[1, 100]], a float of six decimal places in [[0, 1]]
    (both ends included), one of the four categories, and a checksum of 16
    hexadecimal digits. *)
Theorem random_payload_ranges
        (fuel : nat) (e : list Z) (sd : option Z) (p : dict) :
  random_payload fuel e sd = Some p -> payload_ranges_closed p.
Proof.
  intros H. apply random_payload_inv in H.
  destruct H as (i & x & c & g1 & g2 & g3 & Hi & Hx & Hc & ->).
  exists i, (round6 x), c,
    (short_digest
       (encode_utf8 (Json.dumps_sorted (payload_data i (round6 x) c)))).
  split; [reflexivity|].
  split; [exact (randint_range _ _ _ _ _ _ Hi)|].
  split; [apply round6_range; exact (random_range _ _ _ Hx)|].
  split; [exact (choice_In _ _ _ _ _ Hc)|].
  apply short_digest_hex.
Qed.

Lemma random_payload_ranges_witness :
  payload_ranges_closed (payload_of 72 28 "cherry" "1bd08dd6d55c30c6").
Proof.
  refine (random_payload_ranges 10 [] (Some 13091) _ _).
  vm_compute. reflexivity.
Defined.



(** *** The entry point: the stated properties *)

(** The two lines [main] prints about the sequence. *)
Lemma main_sequence_lines (fuel : nat) (w : World) (args : Args)
      (out : list string) (code : Z) :
  main fuel w args = Some (out, code) ->
  nth 9 out EmptyString
  = (Json.newline ++ "Fibonacci(" ++ str_int (count args) ++ ") = "
     ++ str_list (fib (count args)))%string
  /\ nth 10 out EmptyString
     = ("Sum = " ++ str_int (sum (fib (count args)))
        ++ " | Primes in sequence = "
        ++ str_list (filter is_prime (fib (count args))))%string
  /\ code = 0.
Proof.
  unfold main. intros H.
  destruct (random_payload fuel (entropy w) (seed args)) as [p|];
    [|discriminate].
  injection H as <- <-. repeat split.
Qed.

(** C6.  With [count = 5] the sequence is [[0, 1, 1, 2, 3]], its sum is 7 and
    the primes in it are [[2, 3]], in the order of the sequence; these are
    what [main] prints. *)
Theorem main_count_5 (fuel : nat) (w : World) (nm : string) (sd : option Z)
        (out : list string) (code : Z) :
  main fuel w (MkArgs nm sd 5) = Some (out, code) ->
  fib 5 = [0; 1; 1; 2; 3]
  /\ sum (fib 5) = 7
  /\ filter is_prime (fib 5) = [2; 3]
  /\ nth 9 out EmptyString
     = (Json.newline ++ "Fibonacci(5) = [0, 1, 1, 2, 3]")%string
  /\ nth 10 out EmptyString = "Sum = 7 | Primes in sequence = [2, 3]"%string.
Proof.
  intros H. apply main_sequence_lines in H. destruct H as (H9 & H10 & _).
  repeat split; try reflexivity.
  - rewrite H9. reflexivity.
  - rewrite H10. reflexivity.
Qed.

Lemma main_count_5_witness :
  fib 5 = [0; 1; 1; 2; 3]
  /\ sum (fib 5) = 7
  /\ filter is_prime (fib 5) = [2; 3]
  /\ (Json.newline ++ "Fibonacci(5) = [0, 1, 1, 2, 3]")%string
     = (Json.newline ++ "Fibonacci(5) = [0, 1, 1, 2, 3]")%string
  /\ "Sum = 7 | Primes in sequence = [2, 3]"%string
     = "Sum = 7 | Primes in sequence = [2, 3]"%string.
Proof.
  refine (main_count_5 10 example_world "World" (Some 42)
            [ _; _; _; _; _; _; _; _; _;
              (Json.newline ++ "Fibonacci(5) = [0, 1, 1, 2, 3]")%string;
              "Sum = 7 | Primes in sequence = [2, 3]"%string; _ ] 0 _).
  vm_compute. reflexivity.
Defined.



(** * Further properties of the code *)

(** ** [is_prime] and primality *)

(** For odd [n > 2] the loop of [is_prime] decides whether one of 3, 5, 7,
    ... up to the square root divides [n]. *)
Lemma is_prime_odd_spec (n : Z) :
  2 < n -> n mod 2 = 1 ->
  (is_prime n = true <->
   forall k : Z, 0 <= k -> 3 + 2 * k <= Z.sqrt n -> n mod (3 + 2 * k) <> 0).
Proof.
  intros Hn Hm.
  apply (is_prime_loop_spec (is_prime_budget n)); [lia|lia|].
  pose proof (is_prime_run_budget n) as Hr. unfold is_prime_run in Hr.
  replace (n <? 2) with false in Hr by (symmetry; apply Z.ltb_ge; lia).
  rewrite Hm in Hr. exact Hr.
Qed.

(** Of two factors of [n], one is at most the square root. *)
Lemma factor_below_sqrt (n d q : Z) :
  0 < d -> 0 < q -> n = q * d -> d <= Z.sqrt n \/ q <= Z.sqrt n.
Proof.
  intros Hd Hq Hn.
  destruct (Z_le_gt_dec d (Z.sqrt n)) as [Hle|Hgt]; [left; exact Hle|].
  destruct (Z_le_gt_dec q (Z.sqrt n)) as [Hle'|Hgt']; [right; exact Hle'|].
  exfalso.
  pose proof (Z.sqrt_spec n ltac:(nia)) as Hs. cbv zeta in Hs.
  pose proof (Z.sqrt_nonneg n).
  assert ((Z.sqrt n + 1) * (Z.sqrt n + 1) <= q * d) by nia.
  lia.
Qed.

(** A divisor of an odd number is odd. *)
Lemma divisor_of_odd (n d : Z) : n mod 2 = 1 -> (d | n) -> d mod 2 = 1.
Proof.
  intros Hn [q Hq].
  pose proof (Z.mod_pos_bound d 2 ltac:(lia)) as Hb.
  destruct (Z.eq_dec (d mod 2) 1) as [H1|H1]; [exact H1|].
  assert (H0 : d mod 2 = 0) by lia.
  exfalso.
  pose proof (Z.div_mod d 2 ltac:(lia)) as Hd. rewrite H0 in Hd.
  assert (Hn2 : n = (q * (d / 2)) * 2) by lia.
  rewrite Hn2, Z.mod_mul in Hn by lia. discriminate.
Qed.

Lemma is_prime_sound (n : Z) : is_prime n = true -> Z.prime n.
Proof.
  intros Hp.
  destruct (Z_lt_le_dec n 2) as [Hlt|Hge].
  { assert (Hf : is_prime n = false).
    { apply (is_prime_run_is_prime 0). unfold is_prime_run.
      apply Z.ltb_lt in Hlt. rewrite Hlt. reflexivity. }
    congruence. }
  destruct (Z.eq_dec n 2) as [->|Hn2].
  { split; [lia|]. intros d Hd. lia. }
  pose proof (Z.mod_pos_bound n 2 ltac:(lia)) as Hb.
  destruct (Z.eq_dec (n mod 2) 0) as [Hev|Hodd].
  { assert (Hf : is_prime n = false).
    { apply (is_prime_run_is_prime 0). unfold is_prime_run.
      replace (n <? 2) with false by (symmetry; apply Z.ltb_ge; lia).
      rewrite Hev. cbn [Z.eqb]. f_equal. apply Z.eqb_neq. lia. }
    congruence. }
  assert (Hm : n mod 2 = 1) by lia.
  pose proof (proj1 (is_prime_odd_spec n ltac:(lia) Hm) Hp) as Hall.
  split; [lia|]. intros d Hd Hdiv.
  destruct Hdiv as [q Hq].
  assert (Hqpos : 0 < q) by nia.
  assert (Hq1 : 1 < q) by nia.
  destruct (factor_below_sqrt n d q ltac:(lia) Hqpos Hq) as [Hle|Hle].
  - pose proof (divisor_of_odd n d Hm (ex_intro _ q Hq)) as Hdo.
    pose proof (Z.div_mod d 2 ltac:(lia)) as Hdm.
    apply (Hall (d / 2 - 1)); [lia|lia|].
    replace (3 + 2 * (d / 2 - 1)) with d by lia.
    rewrite Hq. apply Z.mod_mul. lia.
  - assert (Hdivq : (q | n)) by (exists d; lia).
    pose proof (divisor_of_odd n q Hm Hdivq) as Hqo.
    pose proof (Z.div_mod q 2 ltac:(lia)) as Hqm.
    apply (Hall (q / 2 - 1)); [lia|lia|].
    replace (3 + 2 * (q / 2 - 1)) with q by lia.
    rewrite Hq, Z.mul_comm. apply Z.mod_mul. lia.
Qed.

Lemma is_prime_complete (n : Z) : Z.prime n -> is_prime n = true.
Proof.
  intros [H1 Hnd].
  destruct (Z.eq_dec n 2) as [->|Hn2]; [reflexivity|].
  pose proof (Z.mod_pos_bound n 2 ltac:(lia)) as Hb.
  destruct (Z.eq_dec (n mod 2) 0) as [Hev|Hodd].
  { exfalso. apply (Hnd 2); [lia|]. apply Z.mod_divide; [lia|exact Hev]. }
  apply is_prime_odd_spec; [lia|lia|].
  intros k Hk Hle Hmod.
  pose proof (Z.sqrt_lt_lin n ltac:(lia)).
  apply (Hnd (3 + 2 * k)); [lia|].
  apply Z.mod_divide; [lia|exact Hmod].
Qed.

(** X1.  [is_prime] decides primality on every integer: it answers [True]
    exactly on the prime numbers. *)
Theorem is_prime_iff_prime (n : Z) :
  (is_prime n = true <-> Z.prime n)
  /\ (is_prime n = false <-> ~ Z.prime n).
Proof.
  split; split.
  - apply is_prime_sound.
  - apply is_prime_complete.
  - intros Hf Hp. apply is_prime_complete in Hp. congruence.
  - intros Hnp. destruct (is_prime n) eqn:Hp; [|reflexivity].
    exfalso. apply Hnp, is_prime_sound, Hp.
Qed.

(** ** The shape of [fib] *)

Lemma Fibonacci_pos (k : nat) : 0 < Fibonacci (S k).
Proof.
  induction k as [|k IH]; [reflexivity|].
  rewrite Fibonacci_SS. pose proof (Fibonacci_nonneg k). lia.
Qed.

Lemma Fibonacci_le_S (k : nat) : Fibonacci k <= Fibonacci (S k).
Proof.
  destruct k as [|k]; [cbn; lia|].
  rewrite Fibonacci_SS. pose proof (Fibonacci_nonneg k). lia.
Qed.

Lemma Fibonacci_le (i j : nat) : (i <= j)%nat -> Fibonacci i <= Fibonacci j.
Proof.
  induction 1 as [|j Hle IH]; [lia|].
  pose proof (Fibonacci_le_S j). lia.
Qed.

(** From the third number on, the Fibonacci numbers grow strictly. *)
Lemma Fibonacci_lt (i j : nat) :
  (2 <= i)%nat -> (i < j)%nat -> Fibonacci i < Fibonacci j.
Proof.
  intros Hi Hlt.
  assert (Hstep : Fibonacci i < Fibonacci (S i)).
  { destruct i as [|[|i]]; [lia|lia|].
    rewrite (Fibonacci_SS (S i)). pose proof (Fibonacci_pos i). lia. }
  pose proof (Fibonacci_le (S i) j ltac:(lia)). lia.
Qed.

Lemma Fibonacci_seq_sorted (a k : nat) :
  StronglySorted Z.le (map Fibonacci (seq a k)).
Proof.
  revert a. induction k as [|k IH]; intros a; cbn [seq map].
  - constructor.
  - constructor; [apply IH|].
    apply Forall_forall. intros x Hx.
    apply in_map_iff in Hx. destruct Hx as [j [<- Hj]].
    apply in_seq in Hj. apply Fibonacci_le. lia.
Qed.

Lemma Fibonacci_seq_increasing (a k : nat) :
  (2 <= a)%nat -> StronglySorted Z.lt (map Fibonacci (seq a k)).
Proof.
  revert a. induction k as [|k IH]; intros a Ha; cbn [seq map].
  - constructor.
  - constructor; [apply IH; lia|].
    apply Forall_forall. intros x Hx.
    apply in_map_iff in Hx. destruct Hx as [j [<- Hj]].
    apply in_seq in Hj. apply Fibonacci_lt; lia.
Qed.

Lemma StronglySorted_filter {A : Type} (R : A -> A -> Prop) (f : A -> bool)
      (l : list A) :
  StronglySorted R l -> StronglySorted R (filter f l).
Proof.
  induction 1 as [|x l Hs IH Hall]; cbn [filter]; [constructor|].
  destruct (f x); [|exact IH].
  constructor; [exact IH|].
  apply Forall_forall. intros y Hy. apply filter_In in Hy.
  rewrite Forall_forall in Hall. apply Hall. tauto.
Qed.

Lemma StronglySorted_lt_NoDup (l : list Z) :
  StronglySorted Z.lt l -> NoDup l.
Proof.
  induction 1 as [|x l Hs IH Hall]; constructor; [|exact IH].
  intros Hin. rewrite Forall_forall in Hall. specialize (Hall x Hin). lia.
Qed.

(** X2.  [fib n] holds no negative number and never decreases from one
    element to the next. *)
Theorem fib_nonneg_sorted (n : Z) :
  Forall (fun x => 0 <= x) (fib n) /\ StronglySorted Z.le (fib n).
Proof.
  rewrite fib_eq. split.
  - apply Forall_forall. intros x Hx.
    apply in_map_iff in Hx. destruct Hx as [j [<- _]].
    apply Fibonacci_nonneg.
  - apply Fibonacci_seq_sorted.
Qed.

(** ** The primes [main] reports *)

(** X3.  The list [main] builds with [[n for n in seq if is_prime(n)]] holds
    exactly the prime numbers that occur in the sequence, in strictly
    increasing order, hence each once: the only repeated element of the
    sequence, 1, is not prime. *)
Theorem primes_of_fib (n : Z) :
  StronglySorted Z.lt (filter is_prime (fib n))
  /\ NoDup (filter is_prime (fib n))
  /\ (forall x : Z,
        In x (filter is_prime (fib n)) <-> In x (fib n) /\ Z.prime x).
Proof.
  assert (Hs : StronglySorted Z.lt (filter is_prime (fib n))).
  { rewrite fib_eq. destruct (range_max0 n) as [|[|k]].
    - constructor.
    - constructor.
    - change (S (S k)) with (2 + k)%nat.
      rewrite seq_app, map_app, filter_app.
      change (filter is_prime (map Fibonacci (seq 0 2))) with (@nil Z).
      cbn [app Nat.add]. apply StronglySorted_filter.
      apply Fibonacci_seq_increasing. lia. }
  split; [exact Hs|]. split; [apply StronglySorted_lt_NoDup; exact Hs|].
  intros x. rewrite filter_In. split.
  - intros [Hin Hp]. split; [exact Hin | apply is_prime_sound; exact Hp].
  - intros [Hin Hp]. split; [exact Hin | apply is_prime_complete; exact Hp].
Qed.

(** ** Runs of [main] *)



(** X5.  A seed and its negative give the same run: the generator is keyed
    with the absolute value of the seed. *)
Theorem seed_sign_ignored
        (fuel : nat) (w : World) (nm : string) (s c : Z) :
  random_payload fuel (entropy w) (Some (- s))
  = random_payload fuel (entropy w) (Some s)
  /\ main fuel w (MkArgs nm (Some (- s)) c)
     = main fuel w (MkArgs nm (Some s) c).
Proof.
  assert (Hp : forall e : list Z,
            random_payload fuel e (Some (- s))
            = random_payload fuel e (Some s)).
  { intros e. unfold random_payload. cbn [random_seed].
    unfold seed_key. rewrite Z.abs_opp. reflexivity. }
  split; [apply Hp|].
  unfold main. cbn [seed]. rewrite Hp. reflexivity.
Qed.

(** Two returning seeded runs of the generator agree, whatever the words of
    the operating system and the step budgets. *)
Lemma random_payload_seeded_agree
      (s : Z) (fuel1 fuel2 : nat) (e1 e2 : list Z) (p1 p2 : dict) :
  random_payload fuel1 e1 (Some s) = Some p1 ->
  random_payload fuel2 e2 (Some s) = Some p2 ->
  p1 = p2.
Proof.
  intros H1 H2.
  apply (random_payload_more _ (Nat.max fuel1 fuel2)) in H1; [|lia].
  apply (random_payload_more _ (Nat.max fuel1 fuel2)) in H2; [|lia].
  unfold random_payload in H1, H2. cbn [random_seed] in H1, H2.
  congruence.
Qed.

(** X6.  A seeded run prints the same text and returns the same code on any
    two hosts that agree on the interpreter version, the platform string,
    the working directory and the banner time: neither the clock reading
    stored by [env_info] nor the operating system's randomness reaches the
    output. *)
Theorem main_seeded_reproducible
        (fuel1 fuel2 : nat) (w1 w2 : World) (nm : string) (s c : Z)
        (r1 r2 : list string * Z) :
  python_version w1 = python_version w2 ->
  platform_string w1 = platform_string w2 ->
  working_directory w1 = working_directory w2 ->
  now_banner w1 = now_banner w2 ->
  main fuel1 w1 (MkArgs nm (Some s) c) = Some r1 ->
  main fuel2 w2 (MkArgs nm (Some s) c) = Some r2 ->
  r1 = r2.
Proof.
  intros Hpy Hpl Hwd Hnow H1 H2.
  unfold main in H1, H2. cbn [seed name count] in H1, H2.
  destruct (random_payload fuel1 (entropy w1) (Some s)) as [p1|] eqn:Hp1;
    [|discriminate].
  destruct (random_payload fuel2 (entropy w2) (Some s)) as [p2|] eqn:Hp2;
    [|discriminate].
  pose proof (random_payload_seeded_agree _ _ _ _ _ _ _ Hp1 Hp2) as Heq.
  subst p2. injection H1 as <-. injection H2 as <-.
  unfold env_info. cbn [lookup String.eqb Ascii.eqb Bool.eqb].
  rewrite Hpy, Hpl, Hwd, Hnow. reflexivity.
Qed.

Lemma main_seeded_reproducible_witness :
  main 10 example_world (MkArgs "CI" (Some 7) 12)
  = main 25 example_world_2 (MkArgs "CI" (Some 7) 12).
Proof.
  assert (H1 : exists r, main 10 example_world (MkArgs "CI" (Some 7) 12)
                         = Some r)
    by (eexists; vm_compute; reflexivity).
  assert (H2 : exists r, main 25 example_world_2 (MkArgs "CI" (Some 7) 12)
                         = Some r)
    by (eexists; vm_compute; reflexivity).
  destruct H1 as [r1 H1]. destruct H2 as [r2 H2].
  rewrite H1, H2. f_equal.
  refine (main_seeded_reproducible 10 25 example_world example_world_2
            "CI" 7 12 r1 r2 _ _ _ _ H1 H2); reflexivity.
Defined.
